(** * APGpsSteerDirector: engagement state machine of the GPS roll-steering director

    A shallow embedding of [src/sdk/autopilot/directors/APGpsSteerDirector.ts].

    - JavaScript numbers are IEEE-754 binary64 values: the primitive [float].
    - The director object is a record; its methods are computations in a small
      state-and-log monad [Eff] that threads the director and records every
      call made to the outside (lifecycle callbacks, bank-drive sink).
    - What the director reads from the simulator during one call (autopilot
      values, steering command, sim vars, clock) is gathered in [Env].
    - [LNavRollSteerComputer], [Math.hypot], [Math.atan2],
      [MathUtils.normalizeAngleDeg] and [Avionics.Utils.RAD2DEG] live outside
      this file of the SDK: they are interfaces ([Class]es) the development
      is parametric in.
    - Guards are pure functions of the autopilot values and the callback
      snapshot; lifecycle callbacks and the bank sink do not call back into
      the director, so a call of one is an entry in the log.
    - [isNavLock] is the value held by the [Subject]; the SimVar write done
      by its subscriber is not part of the model.

    Two smaller embeddings follow the director: the layout logic of the
    synthetic vision horizon layer ([Module SyntheticVision]) and the terrain
    mode mapping of the upper MFD format controller ([Module UpperMfdFormat]). *)

From Stdlib Require Import String.
From Stdlib Require Import Floats.PrimFloat.
From Stdlib Require Import List Bool ZArith Lia.
Import ListNotations.

Set Implicit Arguments.

(** ** Numbers *)

Definition number := float.

(** The global [isFinite] on a number: neither NaN nor an infinity. *)
Definition isFinite (x : number) : bool := is_finite x.

(** [a > b] on numbers (false as soon as one side is NaN). *)
Definition gtb (a b : number) : bool := PrimFloat.ltb b a.

(** ** Data *)

(** [DirectorState] of PlaneDirector. *)
Inductive DirectorState := Inactive | Armed | Active.

Definition DirectorState_eqb (a b : DirectorState) : bool :=
  match a, b with
  | Inactive, Inactive | Armed, Armed | Active, Active => true
  | _, _ => false
  end.

(** [APGpsSteerDirectorSteerCommand]. *)
Module GpsSteer.
Record Command := {
  isValid : bool;
  isHeading : bool;
  courseToSteer : number;
  trackRadius : number;
  dtk : number;
  xtk : number;
  tae : number
}.
End GpsSteer.

(** [LNavRollSteerCommand]: the two fields the director reads. *)
Module RollSteer.
Record Command := {
  isValid : bool;
  desiredBankAngle : number
}.
End RollSteer.

(** [APGpsSteerDirectorState]: what the guard callbacks are shown. *)
Record APGpsSteerDirectorState := {
  gpsSteerCommand : GpsSteer.Command;
  rollSteerCommand : option RollSteer.Command
}.

Inductive NavSourceType := Nav | Gps | Adf.

Record NavSourceId := { navType : NavSourceType; navIndex : nat }.

(** The part of [APValues] the director consults, as read at one instant.
    [navToNavTransferInProgress] is an optional function: [None] when it is
    not defined, otherwise the boolean it returns. *)
Record APValues := {
  simRate : number;
  maxBankAngle : number;
  cdiSource : option NavSourceId;
  navToNavTransferInProgress : option bool
}.

(** Everything one method call reads from outside the director. *)
Record Env := {
  apValues : APValues;
  steerCommand : GpsSteer.Command;      (* steerCommand.get() *)
  velocityWorldX : number;              (* VELOCITY WORLD X, knots *)
  velocityWorldZ : number;              (* VELOCITY WORLD Z, knots *)
  planeHeadingTrue : number;            (* PLANE HEADING DEGREES TRUE *)
  dateNow : Z                           (* Date.now() *)
}.

Definition Guard := APValues -> APGpsSteerDirectorState -> bool.

(** An option of type [number | (() => number) | undefined]. *)
Inductive NumberOrFunc :=
| OptNumber (n : number)
| OptFunction (f : Env -> number)
| OptUndefined.

Record APGpsSteerDirectorOptions := {
  optMaxBankAngle : NumberOrFunc;
  optBankRate : NumberOrFunc;
  canArm : option Guard;
  canRemainArmed : option Guard;
  canActivate : option Guard;
  canRemainActive : option Guard
}.

(** Calls the director makes to the outside. *)
Inductive Call :=
| CallOnActivate
| CallOnArm
| CallOnDeactivate
| CallDriveBank (bank : number) (rate : option number).

Definition isDriveBank (c : Call) : bool :=
  match c with CallDriveBank _ _ => true | _ => false end.

Definition isOnDeactivate (c : Call) : bool :=
  match c with CallOnDeactivate => true | _ => false end.

(** [DirectorLNavRollSteerComputerDataProvider]: the three [Value]s. *)
Record DataProvider := {
  gs : option number;
  track : option number;
  heading : option number
}.

(** The interface of [LNavRollSteerComputer] the director relies on. *)
Class LNavRollSteerComputer (C : Type) := {
  computer_new : C;
  computer_update : GpsSteer.Command -> DataProvider -> number -> Z -> C -> C;
  computer_reset : C -> C;
  computer_steerCommand : C -> RollSteer.Command
}.

(** The numeric routines [DataProvider.update] calls: [Math.hypot],
    [Math.atan2], [MathUtils.normalizeAngleDeg], [Avionics.Utils.RAD2DEG]. *)
Class MathLib := {
  hypot : number -> number -> number;
  atan2 : number -> number -> number;
  normalizeAngleDeg : number -> number;
  RAD2DEG : number
}.

(** ** Default guards (constructor, [options?.canX ?? ...]) *)

Definition defaultCanArm : Guard :=
  fun _ st => GpsSteer.isValid (gpsSteerCommand st).

Definition defaultCanRemainArmed : Guard :=
  fun _ st => GpsSteer.isValid (gpsSteerCommand st).

Definition defaultCanActivate : Guard :=
  fun _ st =>
    match rollSteerCommand st with
    | None => false
    | Some r => RollSteer.isValid r
    end.

Definition isGpsSource (s : option NavSourceId) : bool :=
  match s with
  | Some {| navType := Gps |} => true
  | _ => false
  end.

Definition defaultCanRemainActive : Guard :=
  fun ap st =>
    match rollSteerCommand st with
    | None => false
    | Some r =>
        RollSteer.isValid r
        && (isGpsSource (cdiSource ap)
            || match navToNavTransferInProgress ap with
               | Some b => b
               | None => false
               end)
    end.

Definition orDefault {A} (o : option A) (d : A) : A :=
  match o with Some a => a | None => d end.

Section Director.

Context {C : Type} `{LNavRollSteerComputer C} `{MathLib}.

(** *** The data provider *)

Definition newDataProvider : DataProvider :=
  {| gs := None; track := None; heading := None |}.

Definition DataProvider_update (e : Env) (p : DataProvider) : DataProvider :=
  let velocityEW := velocityWorldX e in
  let velocityNS := velocityWorldZ e in
  let gs' := hypot velocityEW velocityNS in
  if gtb gs' 1%float then
    {| gs := Some gs';
       track := Some (normalizeAngleDeg (mul (atan2 velocityEW velocityNS) RAD2DEG));
       heading := Some (planeHeadingTrue e) |}
  else
    {| gs := Some gs';
       track := Some (planeHeadingTrue e);
       heading := Some (planeHeadingTrue e) |}.

(** *** The director object *)

Record APGpsSteerDirector := {
  state : DirectorState;
  onActivate : bool;        (* is a callback assigned? *)
  onArm : bool;
  onDeactivate : bool;
  driveBank : bool;
  isNavLock : bool;
  callbackState : APGpsSteerDirectorState;
  maxBankAngleFunc : Env -> number;
  bankRateOpt : NumberOrFunc;   (* captured by the driveBankFunc closure *)
  canArmFunc : Guard;
  canRemainArmedFunc : Guard;
  canActivateFunc : Guard;
  canRemainActiveFunc : Guard;
  lnavRollSteerComputerDataProvider : DataProvider;
  lnavRollSteerComputer : C
}.

Definition set_state (s : DirectorState) (d : APGpsSteerDirector) :=
  {| state := s;
     onActivate := onActivate d; onArm := onArm d;
     onDeactivate := onDeactivate d; driveBank := driveBank d;
     isNavLock := isNavLock d;
     callbackState := callbackState d;
     maxBankAngleFunc := maxBankAngleFunc d;
     bankRateOpt := bankRateOpt d;
     canArmFunc := canArmFunc d;
     canRemainArmedFunc := canRemainArmedFunc d;
     canActivateFunc := canActivateFunc d;
     canRemainActiveFunc := canRemainActiveFunc d;
     lnavRollSteerComputerDataProvider := lnavRollSteerComputerDataProvider d;
     lnavRollSteerComputer := lnavRollSteerComputer d |}.

Definition set_isNavLock (b : bool) (d : APGpsSteerDirector) :=
  {| state := state d;
     onActivate := onActivate d; onArm := onArm d;
     onDeactivate := onDeactivate d; driveBank := driveBank d;
     isNavLock := b;
     callbackState := callbackState d;
     maxBankAngleFunc := maxBankAngleFunc d;
     bankRateOpt := bankRateOpt d;
     canArmFunc := canArmFunc d;
     canRemainArmedFunc := canRemainArmedFunc d;
     canActivateFunc := canActivateFunc d;
     canRemainActiveFunc := canRemainActiveFunc d;
     lnavRollSteerComputerDataProvider := lnavRollSteerComputerDataProvider d;
     lnavRollSteerComputer := lnavRollSteerComputer d |}.

Definition set_callbackState (s : APGpsSteerDirectorState) (d : APGpsSteerDirector) :=
  {| state := state d;
     onActivate := onActivate d; onArm := onArm d;
     onDeactivate := onDeactivate d; driveBank := driveBank d;
     isNavLock := isNavLock d;
     callbackState := s;
     maxBankAngleFunc := maxBankAngleFunc d;
     bankRateOpt := bankRateOpt d;
     canArmFunc := canArmFunc d;
     canRemainArmedFunc := canRemainArmedFunc d;
     canActivateFunc := canActivateFunc d;
     canRemainActiveFunc := canRemainActiveFunc d;
     lnavRollSteerComputerDataProvider := lnavRollSteerComputerDataProvider d;
     lnavRollSteerComputer := lnavRollSteerComputer d |}.

Definition set_provider (p : DataProvider) (d : APGpsSteerDirector) :=
  {| state := state d;
     onActivate := onActivate d; onArm := onArm d;
     onDeactivate := onDeactivate d; driveBank := driveBank d;
     isNavLock := isNavLock d;
     callbackState := callbackState d;
     maxBankAngleFunc := maxBankAngleFunc d;
     bankRateOpt := bankRateOpt d;
     canArmFunc := canArmFunc d;
     canRemainArmedFunc := canRemainArmedFunc d;
     canActivateFunc := canActivateFunc d;
     canRemainActiveFunc := canRemainActiveFunc d;
     lnavRollSteerComputerDataProvider := p;
     lnavRollSteerComputer := lnavRollSteerComputer d |}.

Definition set_computer (c : C) (d : APGpsSteerDirector) :=
  {| state := state d;
     onActivate := onActivate d; onArm := onArm d;
     onDeactivate := onDeactivate d; driveBank := driveBank d;
     isNavLock := isNavLock d;
     callbackState := callbackState d;
     maxBankAngleFunc := maxBankAngleFunc d;
     bankRateOpt := bankRateOpt d;
     canArmFunc := canArmFunc d;
     canRemainArmedFunc := canRemainArmedFunc d;
     canActivateFunc := canActivateFunc d;
     canRemainActiveFunc := canRemainActiveFunc d;
     lnavRollSteerComputerDataProvider := lnavRollSteerComputerDataProvider d;
     lnavRollSteerComputer := c |}.

(** Assignment of the four public callback slots by the owner. *)
Definition assignCallbacks (act arm deact drive : bool) (d : APGpsSteerDirector) :=
  {| state := state d;
     onActivate := act; onArm := arm;
     onDeactivate := deact; driveBank := drive;
     isNavLock := isNavLock d;
     callbackState := callbackState d;
     maxBankAngleFunc := maxBankAngleFunc d;
     bankRateOpt := bankRateOpt d;
     canArmFunc := canArmFunc d;
     canRemainArmedFunc := canRemainArmedFunc d;
     canActivateFunc := canActivateFunc d;
     canRemainActiveFunc := canRemainActiveFunc d;
     lnavRollSteerComputerDataProvider := lnavRollSteerComputerDataProvider d;
     lnavRollSteerComputer := lnavRollSteerComputer d |}.

(** *** The effect monad: director state plus a log of outside calls *)

Definition Eff (A : Type) := APGpsSteerDirector -> A * APGpsSteerDirector * list Call.

Definition ret {A} (a : A) : Eff A := fun d => (a, d, []).

Definition bind {A B} (m : Eff A) (k : A -> Eff B) : Eff B :=
  fun d =>
    let '(a, d1, l1) := m d in
    let '(b, d2, l2) := k a d1 in
    (b, d2, l1 ++ l2).

Definition gets {A} (f : APGpsSteerDirector -> A) : Eff A := fun d => (f d, d, []).

Definition modify (f : APGpsSteerDirector -> APGpsSteerDirector) : Eff unit :=
  fun d => (tt, f d, []).

(** [cb && cb()] on an optional callback slot. *)
Definition fire (slot : APGpsSteerDirector -> bool) (c : Call) : Eff unit :=
  fun d => (tt, d, if slot d then [c] else []).

Definition exec {A} (m : Eff A) (d : APGpsSteerDirector) : APGpsSteerDirector :=
  snd (fst (m d)).

Definition calls {A} (m : Eff A) (d : APGpsSteerDirector) : list Call :=
  snd (m d).

Notation "x <- m ;; k" := (bind m (fun x => k))
  (at level 61, m at next level, right associativity).
Notation "m ;; k" := (bind m (fun _ => k))
  (at level 61, right associativity).

(** *** Constructor *)

Definition mkMaxBankAngleFunc (o : NumberOrFunc) : Env -> number :=
  match o with
  | OptNumber n => fun _ => n
  | OptFunction f => f
  | OptUndefined => fun e => maxBankAngle (apValues e)
  end.

(** The closure [this.driveBankFunc], selected by [typeof bankRateOpt];
    every variant is guarded by [isFinite(bank) && this.driveBank]. *)
Definition driveBankFunc (e : Env) (bank : number) : Eff unit :=
  fun d =>
    match bankRateOpt d with
    | OptNumber bankRateOpt =>
        if isFinite bank && driveBank d
        then (tt, d, [CallDriveBank bank (Some (mul bankRateOpt (simRate (apValues e))))])
        else (tt, d, [])
    | OptFunction bankRateOpt =>
        if isFinite bank && driveBank d
        then (tt, d, [CallDriveBank bank (Some (mul (bankRateOpt e) (simRate (apValues e))))])
        else (tt, d, [])
    | OptUndefined =>
        if isFinite bank && driveBank d
        then (tt, d, [CallDriveBank bank None])
        else (tt, d, [])
    end.

(** The [rate] argument [driveBankFunc] passes to the sink. *)
Definition driveRate (e : Env) (d : APGpsSteerDirector) : option number :=
  match bankRateOpt d with
  | OptNumber bankRateOpt => Some (mul bankRateOpt (simRate (apValues e)))
  | OptFunction bankRateOpt => Some (mul (bankRateOpt e) (simRate (apValues e)))
  | OptUndefined => None
  end.

Definition noOptions : APGpsSteerDirectorOptions :=
  {| optMaxBankAngle := OptUndefined; optBankRate := OptUndefined;
     canArm := None; canRemainArmed := None;
     canActivate := None; canRemainActive := None |}.

(** [new APGpsSteerDirector(apValues, steerCommand, options?)]; [e] is what
    the outside shows while the constructor runs. *)
Definition new (e : Env) (options : option APGpsSteerDirectorOptions) : APGpsSteerDirector :=
  let o := orDefault options noOptions in
  {| state := Inactive;
     onActivate := false; onArm := false;
     onDeactivate := false; driveBank := false;
     isNavLock := false;
     callbackState :=
       {| gpsSteerCommand := steerCommand e; rollSteerCommand := None |};
     maxBankAngleFunc := mkMaxBankAngleFunc (optMaxBankAngle o);
     bankRateOpt := optBankRate o;
     canArmFunc := orDefault (canArm o) defaultCanArm;
     canRemainArmedFunc := orDefault (canRemainArmed o) defaultCanRemainArmed;
     canActivateFunc := orDefault (canActivate o) defaultCanActivate;
     canRemainActiveFunc := orDefault (canRemainActive o) defaultCanRemainActive;
     lnavRollSteerComputerDataProvider := newDataProvider;
     lnavRollSteerComputer := computer_new |}.

(** *** Methods *)

Definition activate : Eff unit :=
  modify (set_state Active) ;;
  fire onActivate CallOnActivate ;;
  modify (set_isNavLock true).

Definition updateCallbackState (e : Env) (rollSteerCommand : option RollSteer.Command)
  : Eff unit :=
  modify (set_callbackState
            {| gpsSteerCommand := steerCommand e;
               rollSteerCommand := rollSteerCommand |}).

Definition arm (e : Env) : Eff unit :=
  s <- gets state ;;
  if DirectorState_eqb s Inactive then
    updateCallbackState e None ;;
    ok <- gets (fun d => canArmFunc d (apValues e) (callbackState d)) ;;
    if ok then
      modify (set_state Armed) ;;
      fire onArm CallOnArm ;;
      modify (set_isNavLock true)
    else ret tt
  else ret tt.

Definition deactivate : Eff unit :=
  modify (set_state Inactive) ;;
  fire onDeactivate CallOnDeactivate ;;
  modify (set_isNavLock false) ;;
  modify (fun d => set_computer (computer_reset (lnavRollSteerComputer d)) d).

Definition tryActivate (e : Env) : Eff unit :=
  ok <- gets (fun d => canActivateFunc d (apValues e) (callbackState d)) ;;
  if ok then activate else ret tt.

(** The [Armed] block of [update]; the result says whether [update] has
    returned from inside it. *)
Definition updateArmed (e : Env) : Eff bool :=
  s <- gets state ;;
  if DirectorState_eqb s Armed then
    ok <- gets (fun d => canRemainArmedFunc d (apValues e) (callbackState d)) ;;
    if negb ok then
      deactivate ;; ret true
    else
      tryActivate e ;; ret false
  else ret false.

(** The [Active] block of [update]. *)
Definition updateActive (e : Env) : Eff unit :=
  s <- gets state ;;
  if DirectorState_eqb s Active then
    ok <- gets (fun d => canRemainActiveFunc d (apValues e) (callbackState d)) ;;
    if negb ok then
      deactivate
    else
      rollSteerCommand <- gets (fun d => computer_steerCommand (lnavRollSteerComputer d)) ;;
      if RollSteer.isValid rollSteerCommand
         && isFinite (RollSteer.desiredBankAngle rollSteerCommand)
      then
        driveBankFunc e (RollSteer.desiredBankAngle rollSteerCommand)
      else ret tt
  else ret tt.

Definition update (e : Env) : Eff unit :=
  modify (fun d => set_provider
                     (DataProvider_update e (lnavRollSteerComputerDataProvider d)) d) ;;
  modify (fun d => set_computer
                     (computer_update (steerCommand e)
                        (lnavRollSteerComputerDataProvider d)
                        (maxBankAngleFunc d e) (dateNow e)
                        (lnavRollSteerComputer d)) d) ;;
  cmd <- gets (fun d => computer_steerCommand (lnavRollSteerComputer d)) ;;
  updateCallbackState e (Some cmd) ;;
  returned <- updateArmed e ;;
  if returned then ret tt else updateActive e.

(** *** Sequences of operations *)

(** What the owner of a director can do with it: call one of the four
    methods, or (re)assign the public callback slots. *)
Inductive Op :=
| OpArm
| OpActivate
| OpDeactivate
| OpUpdate
| OpAssign (act arm deact drive : bool).

Definition perform (e : Env) (o : Op) : Eff unit :=
  match o with
  | OpArm => arm e
  | OpActivate => activate
  | OpDeactivate => deactivate
  | OpUpdate => update e
  | OpAssign a b c dr => modify (assignCallbacks a b c dr)
  end.

Fixpoint run (l : list (Env * Op)) (d : APGpsSteerDirector) : APGpsSteerDirector :=
  match l with
  | [] => d
  | (e, o) :: l' => run l' (exec (perform e o) d)
  end.

(** The engagement-state changes seen along a sequence of operations:
    one triple (operation, state before, state after) per call. *)
Fixpoint transitions (l : list (Env * Op)) (d : APGpsSteerDirector)
  : list (Op * DirectorState * DirectorState) :=
  match l with
  | [] => []
  | (e, o) :: l' =>
      let d' := exec (perform e o) d in
      (o, state d, state d') :: transitions l' d'
  end.

(** *** Vocabulary for the statements *)

(** The roll command the computer holds once this tick's
    [lnavRollSteerComputer.update] has run. *)
Definition tickRollCommand (e : Env) (d : APGpsSteerDirector) : RollSteer.Command :=
  computer_steerCommand
    (computer_update (steerCommand e)
       (DataProvider_update e (lnavRollSteerComputerDataProvider d))
       (maxBankAngleFunc d e) (dateNow e) (lnavRollSteerComputer d)).

(** The snapshot the guards are shown during this tick. *)
Definition tickCallbackState (e : Env) (d : APGpsSteerDirector) : APGpsSteerDirectorState :=
  {| gpsSteerCommand := steerCommand e;
     rollSteerCommand := Some (tickRollCommand e d) |}.

(** The director after the sense / compute / snapshot prefix of [update]. *)
Definition refreshed (e : Env) (d : APGpsSteerDirector) : APGpsSteerDirector :=
  set_callbackState (tickCallbackState e d)
    (set_computer
       (computer_update (steerCommand e)
          (DataProvider_update e (lnavRollSteerComputerDataProvider d))
          (maxBankAngleFunc d e) (dateNow e) (lnavRollSteerComputer d))
       (set_provider (DataProvider_update e (lnavRollSteerComputerDataProvider d)) d)).

(** The snapshot [arm] shows to [canArm]: roll command null. *)
Definition armCallbackState (e : Env) : APGpsSteerDirectorState :=
  {| gpsSteerCommand := steerCommand e; rollSteerCommand := None |}.

(** The nav-lock indicator mirrors engagement. *)
Definition navLockInv (d : APGpsSteerDirector) : Prop :=
  isNavLock d = negb (DirectorState_eqb (state d) Inactive).

End Director.

(** The engagement edges: Inactive to Armed, Armed to Active, and Armed or
    Active to Inactive; a state may also stay as it is. *)
Definition claimedEdge (s s' : DirectorState) : bool :=
  match s, s' with
  | Inactive, Inactive | Armed, Armed | Active, Active => true
  | Inactive, Armed => true
  | Armed, Active => true
  | Armed, Inactive | Active, Inactive => true
  | _, _ => false
  end.

(** The edges each operation can take. *)
Definition opEdge (t : Op * DirectorState * DirectorState) : bool :=
  match t with
  | (OpArm, Inactive, (Inactive | Armed)) => true
  | (OpArm, Armed, Armed) | (OpArm, Active, Active) => true
  | (OpActivate, _, Active) => true
  | (OpDeactivate, _, Inactive) => true
  | (OpUpdate, Inactive, Inactive) => true
  | (OpUpdate, Armed, _) => true
  | (OpUpdate, Active, (Active | Inactive)) => true
  | (OpAssign _ _ _ _, s, s') => DirectorState_eqb s s'
  | _ => false
  end.

Definition isActivate (o : Op) : bool :=
  match o with OpActivate => true | _ => false end.

(** Every observed change follows one of the engagement edges. *)
Definition alongClaimedEdges (ts : list (Op * DirectorState * DirectorState)) : bool :=
  forallb (fun t => claimedEdge (snd (fst t)) (snd t)) ts.

(** The same, except for the steps that are direct calls of [activate]. *)
Definition alongClaimedEdgesButActivate
  (ts : list (Op * DirectorState * DirectorState)) : bool :=
  forallb (fun t => isActivate (fst (fst t)) || claimedEdge (snd (fst t)) (snd t)) ts.

(** ** Concrete collaborators for closed examples *)

(** A small roll-steer computer: its state is the command it last produced;
    the bank angle is the negated track-angle error, valid when the steering
    command is valid and a ground track is known. *)
Definition sampleComputer : LNavRollSteerComputer RollSteer.Command := {|
  computer_new := {| RollSteer.isValid := false; RollSteer.desiredBankAngle := 0%float |};
  computer_update cmd p _ _ _ :=
    {| RollSteer.isValid :=
         GpsSteer.isValid cmd && match track p with Some _ => true | None => false end;
       RollSteer.desiredBankAngle := opp (GpsSteer.tae cmd) |};
  computer_reset _ := {| RollSteer.isValid := false; RollSteer.desiredBankAngle := 0%float |};
  computer_steerCommand c := c
|}.

(** Numeric routines that agree with the JavaScript ones on the inputs used
    in the closed examples below: the square root of the sum of squares, the
    angle of a point on the positive north axis, and the identity on angles
    already in range. *)
Definition sampleMath : MathLib := {|
  hypot x y := sqrt (add (mul x x) (mul y y));
  atan2 y x := if PrimFloat.eqb y 0%float && PrimFloat.ltb 0%float x then 0%float else nan;
  normalizeAngleDeg a := if PrimFloat.leb 0%float a && PrimFloat.ltb a 360%float then a else nan;
  RAD2DEG := 0x1.ca5dc1a63c1f8p+5%float
|}.

Definition sampleCommand (valid : bool) (tae : number) : GpsSteer.Command :=
  {| GpsSteer.isValid := valid; GpsSteer.isHeading := false;
     GpsSteer.courseToSteer := 90%float; GpsSteer.trackRadius := 0x1.921fb54442d18p+0%float;
     GpsSteer.dtk := 90%float; GpsSteer.xtk := 0%float; GpsSteer.tae := tae |}.

Definition sampleEnv (valid : bool) (tae : number) (src : option NavSourceId) : Env :=
  {| apValues := {| simRate := 1%float; maxBankAngle := 25%float; cdiSource := src;
                    navToNavTransferInProgress := None |};
     steerCommand := sampleCommand valid tae;
     velocityWorldX := 0%float; velocityWorldZ := 50%float; planeHeadingTrue := 10%float;
     dateNow := 1000%Z |}.

Definition gpsSource : option NavSourceId := Some {| navType := Gps; navIndex := 1 |}.
Definition navSource : option NavSourceId := Some {| navType := Nav; navIndex := 1 |}.

(** A freshly constructed director with the default options, the same one
    with its four callback slots assigned, then armed, then active. *)
Definition sampleNew : APGpsSteerDirector :=
  new (H:=sampleComputer) (sampleEnv true 5%float gpsSource) None.

Definition sampleWired : APGpsSteerDirector :=
  assignCallbacks true true true true sampleNew.

Definition sampleArmed : APGpsSteerDirector :=
  exec (arm (sampleEnv true 5%float gpsSource)) sampleWired.

Definition sampleActive : APGpsSteerDirector :=
  exec (update (H:=sampleComputer) (H0:=sampleMath) (sampleEnv true 5%float gpsSource))
    sampleArmed.

(** ** Observations used by the lifecycle properties *)

Section Observations.

Context {C : Type} `{LNavRollSteerComputer C} `{MathLib}.

(** Every call made to the outside along a sequence of operations. *)
Fixpoint runCalls (l : list (Env * Op)) (d : APGpsSteerDirector (C:=C)) : list Call :=
  match l with
  | [] => []
  | (e, o) :: l' => calls (perform e o) d ++ runCalls l' (exec (perform e o) d)
  end.

(** The [readonly] fields the constructor fills from its options. *)
Definition configuration (d : APGpsSteerDirector (C:=C)) :=
  (maxBankAngleFunc d, bankRateOpt d,
   canArmFunc d, canRemainArmedFunc d, canActivateFunc d, canRemainActiveFunc d).

(** The four public callback slots. *)
Definition callbackSlots (d : APGpsSteerDirector (C:=C)) :=
  (onActivate d, onArm d, onDeactivate d, driveBank d).

End Observations.

(** The operations that can take a director out of [Inactive]. *)
Definition engages (o : Op) : bool :=
  match o with OpArm | OpActivate => true | _ => false end.

Definition isUpdate (o : Op) : bool :=
  match o with OpUpdate => true | _ => false end.

Definition isAssign (o : Op) : bool :=
  match o with OpAssign _ _ _ _ => true | _ => false end.

(** The second conjunct of the default [canRemainActive]: the CDI source is
    GPS, or a nav-to-nav transfer is reported in progress. *)
Definition gpsHasAuthority (ap : APValues) : bool :=
  isGpsSource (cdiSource ap)
  || match navToNavTransferInProgress ap with
     | Some b => b
     | None => false
     end.

(** Options that override the bank rate only. *)
Definition bankRateOptions (r : NumberOrFunc) : APGpsSteerDirectorOptions :=
  {| optMaxBankAngle := OptUndefined; optBankRate := r;
     canArm := None; canRemainArmed := None;
     canActivate := None; canRemainActive := None |}.

(** A life of a director up to Armed, and on to Active: the owner assigns
    the four callbacks, arms with a valid steering command, then ticks. *)
Definition sampleLifeArmed : list (Env * Op) :=
  [ (sampleEnv true 5%float gpsSource, OpAssign true true true true);
    (sampleEnv true 5%float gpsSource, OpArm) ].

Definition sampleLifeActive : list (Env * Op) :=
  sampleLifeArmed ++ [ (sampleEnv true 5%float gpsSource, OpUpdate) ].

(** An environment with the given velocity components and heading. *)
Definition velocityEnv (vEW vNS hdg : number) : Env :=
  {| apValues := apValues (sampleEnv true 5%float gpsSource);
     steerCommand := sampleCommand true 5%float;
     velocityWorldX := vEW; velocityWorldZ := vNS; planeHeadingTrue := hdg;
     dateNow := 1000%Z |}.

(** * SyntheticVision: layout of the synthetic vision horizon layer

    A shallow embedding of the layout logic of
    [src/garminsdk/components/nextgenpfd/horizon/SyntheticVision.tsx]: the two
    dirty flags, the root style object and the Bing resolution.  Visibility
    (kept by the [HorizonLayer] base class) and the projection are read from
    outside; rendering, the Bing component and the subscriptions are not
    part of the model. *)

Module SyntheticVision.

(** A value stored in the root style: a literal string, or the template
    string made of a number followed by [px]. *)
Inductive StyleValue :=
| Literal (s : string)
| Px (n : number).

Record RootStyle := {
  position : StyleValue;
  display : StyleValue;
  left : StyleValue;
  top : StyleValue;
  width : StyleValue;
  height : StyleValue
}.

(** What [onUpdated] reads from [props.projection]. *)
Record Projection := {
  projectedSize : number * number;
  projectedOffset : number * number;
  offsetCenterProjected : number * number
}.

Record Layer := {
  rootStyle : RootStyle;
  resolution : number * number;
  needUpdateVisibility : bool;
  needUpdate : bool
}.

(** [BitFlags.isAny] and the two [HorizonProjectionChangeType] flags
    [onProjectionChanged] tests for; flags are integers combined bitwise. *)
Class ChangeFlags := {
  isAny : Z -> Z -> bool;
  ProjectedSize : Z;
  ProjectedOffset : Z
}.

(** The field initialisers of the class. *)
Definition create : Layer :=
  {| rootStyle :=
       {| position := Literal "absolute"; display := Literal "";
          left := Literal "0"; top := Literal "0";
          width := Literal "100%"; height := Literal "100%" |};
     resolution := (100%float, 100%float);
     needUpdateVisibility := false;
     needUpdate := false |}.

Definition set_display (v : StyleValue) (r : RootStyle) : RootStyle :=
  {| position := position r; display := v; left := left r; top := top r;
     width := width r; height := height r |}.

Definition onVisibilityChanged (s : Layer) : Layer :=
  {| rootStyle := rootStyle s; resolution := resolution s;
     needUpdateVisibility := true; needUpdate := needUpdate s |}.

Definition onAttached (s : Layer) : Layer :=
  {| rootStyle := rootStyle s; resolution := resolution s;
     needUpdateVisibility := true; needUpdate := true |}.

Definition onProjectionChanged `{ChangeFlags} (changeFlags : Z) (s : Layer) : Layer :=
  if isAny changeFlags (Z.lor ProjectedSize ProjectedOffset) then
    {| rootStyle := rootStyle s; resolution := resolution s;
       needUpdateVisibility := needUpdateVisibility s; needUpdate := true |}
  else s.

Definition onUpdated (isVisible : bool) (projection : Projection) (s : Layer) : Layer :=
  let style1 :=
    if needUpdateVisibility s
    then set_display (Literal (if isVisible then "" else "none")) (rootStyle s)
    else rootStyle s in
  if negb (needUpdate s) || negb isVisible then
    {| rootStyle := style1; resolution := resolution s;
       needUpdateVisibility := needUpdateVisibility s; needUpdate := needUpdate s |}
  else
    let projectedSize := projectedSize projection in
    let projectedOffset := projectedOffset projection in
    let offsetCenterProjected := offsetCenterProjected projection in
    let xOverdraw := abs (fst projectedOffset) in
    let yOverdraw := abs (snd projectedOffset) in
    let bingWidth := add (fst projectedSize) (mul xOverdraw 2%float) in
    let bingHeight := add (snd projectedSize) (mul yOverdraw 2%float) in
    {| rootStyle :=
         {| position := position style1;
            display := display style1;
            left := Px (sub (fst offsetCenterProjected) (div bingWidth 2%float));
            top := Px (sub (snd offsetCenterProjected) (div bingHeight 2%float));
            width := Px bingWidth;
            height := Px bingHeight |};
       resolution := (bingWidth, bingHeight);
       needUpdateVisibility := needUpdateVisibility s;
       needUpdate := false |}.

(** The layout-related part of a layer: Bing resolution and the four
    geometric style entries. *)
Definition geometry (s : Layer) :=
  (resolution s, left (rootStyle s), top (rootStyle s),
   width (rootStyle s), height (rootStyle s)).

(** The geometry [onUpdated] computes from a projection. *)
Definition layoutOf (projection : Projection) :=
  let bingWidth :=
    add (fst (projectedSize projection))
      (mul (abs (fst (projectedOffset projection))) 2%float) in
  let bingHeight :=
    add (snd (projectedSize projection))
      (mul (abs (snd (projectedOffset projection))) 2%float) in
  ((bingWidth, bingHeight),
   Px (sub (fst (offsetCenterProjected projection)) (div bingWidth 2%float)),
   Px (sub (snd (offsetCenterProjected projection)) (div bingHeight 2%float)),
   Px bingWidth, Px bingHeight).

(** The callbacks the horizon component invokes on the layer. *)
Inductive LayerOp :=
| VisibilityChanged
| Attached
| ProjectionChanged (changeFlags : Z)
| Updated (isVisible : bool) (projection : Projection).

Definition applyOp `{ChangeFlags} (o : LayerOp) (s : Layer) : Layer :=
  match o with
  | VisibilityChanged => onVisibilityChanged s
  | Attached => onAttached s
  | ProjectionChanged f => onProjectionChanged f s
  | Updated v p => onUpdated v p s
  end.

Definition runLayer `{ChangeFlags} (l : list LayerOp) (s : Layer) : Layer :=
  fold_left (fun s o => applyOp o s) l s.

(** An [onUpdated] call made while the layer is visible. *)
Definition isVisibleUpdate (o : LayerOp) : bool :=
  match o with Updated true _ => true | _ => false end.

(** The callbacks that mark the layout as out of date. *)
Definition requestsLayout `{ChangeFlags} (o : LayerOp) : bool :=
  match o with
  | Attached => true
  | ProjectionChanged f => isAny f (Z.lor ProjectedSize ProjectedOffset)
  | _ => false
  end.

(** Sample flags for closed examples: bit 2 and bit 3, tested bitwise. *)
Definition sampleFlags : ChangeFlags :=
  {| isAny f c := negb (Z.eqb (Z.land f c) 0);
     ProjectedSize := 4; ProjectedOffset := 8 |}.

Definition sampleProjection (ox oy : number) : Projection :=
  {| projectedSize := (800%float, 600%float);
     projectedOffset := (ox, oy);
     offsetCenterProjected := (add 400%float ox, add 300%float oy) |}.

End SyntheticVision.

(** * Upper MFD map format controller: terrain mode

    The mapping function of [onAfterMapRender] in the upper MFD format
    controller ([src/unnamed/part_000]). *)

Module UpperMfdFormat.

Inductive TERRAIN_MODE := OFF | SA | GEO.

Definition terrainMode (terrWxState : string)
  (isGeoTerrainEnabled isSATerrainEnabled : bool) : TERRAIN_MODE :=
  if isSATerrainEnabled && String.eqb terrWxState "WX" then OFF
  else if isSATerrainEnabled then SA
  else if isGeoTerrainEnabled then GEO
  else OFF.

End UpperMfdFormat.

(** * Properties *)

Section DirectorProperties.

Context {C : Type} `{LNavRollSteerComputer C} `{MathLib}.

Implicit Types (d : APGpsSteerDirector (C:=C)) (e : Env).

Ltac unfold_eff :=
  unfold update, updateArmed, updateActive, tryActivate, arm, activate,
    deactivate, updateCallbackState, driveBankFunc, fire, modify, gets,
    bind, ret, exec, calls in *.

Lemma update_from_Inactive e d :
  state d = Inactive -> update e d = (tt, refreshed e d, []).
Proof.
  intros Hs. destruct d; simpl in Hs; subst. reflexivity.
Qed.

(** Destructs the director, then case-splits on every guard outcome. *)
Ltac crush_director d :=
  destruct d; unfold tickCallbackState, tickRollCommand in *; simpl in *; subst;
  unfold_eff; simpl in *;
  repeat match goal with
    | |- context [if negb ?b then _ else _] => destruct b eqn:?; simpl in *
    | |- context [if ?b then _ else _] => destruct b eqn:?; simpl in *
    | |- context [match ?b with OptNumber _ => _ | _ => _ end] => destruct b eqn:?; simpl in *
    end.

(** C3 (as amended): from Armed, one tick ends Active exactly when
    [canRemainArmed], [canActivate] and [canRemainActive] all hold on the
    snapshot refreshed at the start of the tick; it ends Inactive when
    [canRemainArmed] fails, or when the director activates and
    [canRemainActive] then fails; it stays Armed when only [canActivate]
    fails.  The outside calls tell the cases apart: a failing
    [canRemainArmed] fires the deactivate callback only; a failing
    [canActivate] fires nothing; when the director activates and
    [canRemainActive] then fails, the tick runs [activate] and then
    [deactivate] on the refreshed director, firing the activate callback
    followed by the deactivate callback (each when assigned). *)
Theorem update_from_Armed_end_state e d :
  state d = Armed ->
  let ap := apValues e in
  let cb := tickCallbackState e d in
  let d' := exec (update e) d in
  (state d' = Active <->
     canRemainArmedFunc d ap cb = true
     /\ canActivateFunc d ap cb = true
     /\ canRemainActiveFunc d ap cb = true)
  /\ (canRemainArmedFunc d ap cb = false -> state d' = Inactive)
  /\ (canRemainArmedFunc d ap cb = true -> canActivateFunc d ap cb = false ->
      state d' = Armed)
  /\ (canRemainArmedFunc d ap cb = true -> canActivateFunc d ap cb = true ->
      canRemainActiveFunc d ap cb = false -> state d' = Inactive)
  /\ (canRemainArmedFunc d ap cb = false ->
      calls (update e) d = (if onDeactivate d then [CallOnDeactivate] else [])
      /\ d' = exec deactivate (refreshed e d))
  /\ (canRemainArmedFunc d ap cb = true -> canActivateFunc d ap cb = false ->
      calls (update e) d = [] /\ d' = refreshed e d)
  /\ (canRemainArmedFunc d ap cb = true -> canActivateFunc d ap cb = true ->
      canRemainActiveFunc d ap cb = false ->
      calls (update e) d
      = (if onActivate d then [CallOnActivate] else [])
        ++ (if onDeactivate d then [CallOnDeactivate] else [])
      /\ calls (update e) d
         = calls activate (refreshed e d)
           ++ calls deactivate (exec activate (refreshed e d))
      /\ d' = exec deactivate (exec activate (refreshed e d))).
Proof.
  intros Hs ap cb d'. subst ap cb d'. unfold refreshed.
  crush_director d;
    repeat split; intros; try congruence; try tauto;
    repeat match goal with H : _ /\ _ |- _ => destruct H end; congruence.
Qed.

(** C2: whenever [update] calls the bank-drive sink, the bank argument is
    finite (and is the bank angle of this tick's valid roll command); a roll
    command that is invalid or whose bank angle is not finite produces no
    call of the sink. *)
Theorem update_drive_bank_finite e d :
  (forall bank rate,
      In (CallDriveBank bank rate) (calls (update e) d) ->
      isFinite bank = true
      /\ bank = RollSteer.desiredBankAngle (tickRollCommand e d)
      /\ RollSteer.isValid (tickRollCommand e d) = true)
  /\ (RollSteer.isValid (tickRollCommand e d) = false
      \/ isFinite (RollSteer.desiredBankAngle (tickRollCommand e d)) = false ->
      filter isDriveBank (calls (update e) d) = []).
Proof.
  split.
  - intros bank rate.
    crush_director d; intros Hin;
      repeat match goal with
        | H : _ \/ _ |- _ => destruct H
        | H : False |- _ => destruct H
        | H : CallDriveBank _ _ = CallDriveBank _ _ |- _ => inversion H; clear H; subst
        | H : _ && _ = true |- _ => apply andb_prop in H; destruct H
        end; try discriminate; auto.
  - crush_director d; intros [Hv | Hf];
      try reflexivity;
      repeat match goal with
        | H : _ && _ = true |- _ => apply andb_prop in H; destruct H
        end; congruence.
Qed.

(** C4: from Active, one tick ends Inactive exactly when [canRemainActive]
    fails on this tick's snapshot; while it holds the director stays
    Active, and an invalid roll command then means no call at all. *)
Theorem update_from_Active e d :
  state d = Active ->
  let ap := apValues e in
  let cb := tickCallbackState e d in
  let d' := exec (update e) d in
  (state d' = Inactive <-> canRemainActiveFunc d ap cb = false)
  /\ (canRemainActiveFunc d ap cb = true -> state d' = Active)
  /\ (canRemainActiveFunc d ap cb = true ->
      RollSteer.isValid (tickRollCommand e d) = false ->
      state d' = Active /\ calls (update e) d = []).
Proof.
  intros Hs ap cb d'. subst ap cb d'.
  crush_director d;
    repeat split; intros; try congruence;
    repeat match goal with
      | H : _ && _ = true |- _ => apply andb_prop in H; destruct H
      end; congruence.
Qed.

(** C5: [deactivate], from any state, ends Inactive with the indicator
    false and the roll-steer computer reset, and calls the on-deactivate
    callback (when one is assigned) exactly once and nothing else. *)
Theorem deactivate_spec d :
  let d' := exec deactivate d in
  state d' = Inactive
  /\ isNavLock d' = false
  /\ lnavRollSteerComputer d' = computer_reset (lnavRollSteerComputer d)
  /\ calls deactivate d = (if onDeactivate d then [CallOnDeactivate] else [])
  /\ (onDeactivate d = true ->
      length (filter isOnDeactivate (calls deactivate d)) = 1).
Proof.
  destruct d as [? ? ? deact ? ? ? ? ? ? ? ? ? ? ?]; unfold_eff; simpl.
  destruct deact; simpl; repeat split; try reflexivity; discriminate.
Qed.

(** C6: [arm] from Inactive with [canArm] true on the null-roll snapshot
    ends Armed with the indicator true and the arm callback fired; with
    [canArm] false the state and the indicator are unchanged and nothing is
    called; from Armed or Active it changes nothing at all. *)
Theorem arm_spec e d :
  let ok := canArmFunc d (apValues e) (armCallbackState e) in
  let d' := exec (arm e) d in
  (state d = Inactive -> ok = true ->
   state d' = Armed /\ isNavLock d' = true
   /\ calls (arm e) d = (if onArm d then [CallOnArm] else []))
  /\ (state d = Inactive -> ok = false ->
      state d' = Inactive /\ isNavLock d' = isNavLock d /\ calls (arm e) d = [])
  /\ (state d <> Inactive -> d' = d /\ calls (arm e) d = []).
Proof.
  intros ok d'. subst ok d'. unfold armCallbackState.
  destruct d as [st ? armSlot ? ? ? ? ? ? canArmF ? ? ? ? ?]; unfold_eff; simpl.
  destruct st; simpl;
    (split; [|split]); intros; try congruence;
    repeat match goal with H : canArmF _ _ = _ |- _ => rewrite H; clear H end;
    simpl; try destruct armSlot; simpl; repeat split; congruence.
Qed.

(** C7: one update of the data provider stores [hypot(vEW, vNS)] as ground
    speed; above 1 knot the ground track is [atan2(vEW, vNS)] in degrees
    passed through [normalizeAngleDeg], otherwise (ground speed 0.5 knot
    included) it is the heading reading; with [vEW = 0] and [vNS = 50],
    the numeric routines giving [hypot(0, 50) = 50], [atan2(0, 50) = 0],
    [0 * RAD2DEG = 0] and [normalizeAngleDeg(0) = 0], ground speed is 50 and
    ground track is 0. *)
Theorem DataProvider_update_spec e (p : DataProvider) :
  let vEW := velocityWorldX e in
  let vNS := velocityWorldZ e in
  let p' := DataProvider_update e p in
  gs p' = Some (hypot vEW vNS)
  /\ (gtb (hypot vEW vNS) 1%float = true ->
      track p' = Some (normalizeAngleDeg (mul (atan2 vEW vNS) RAD2DEG)))
  /\ (gtb (hypot vEW vNS) 1%float = false ->
      track p' = Some (planeHeadingTrue e))
  /\ (hypot vEW vNS = 0.5%float -> track p' = Some (planeHeadingTrue e))
  /\ (vEW = 0%float -> vNS = 50%float ->
      hypot 0%float 50%float = 50%float ->
      atan2 0%float 50%float = 0%float ->
      mul 0%float RAD2DEG = 0%float ->
      normalizeAngleDeg 0%float = 0%float ->
      gs p' = Some 50%float /\ track p' = Some 0%float).
Proof.
  intros vEW vNS p'. subst vEW vNS p'. unfold DataProvider_update.
  split; [destruct (gtb _ _); reflexivity|].
  split; [intros ->; reflexivity|].
  split; [intros ->; reflexivity|].
  split.
  - intros ->. reflexivity.
  - intros -> -> -> -> -> ->. split; reflexivity.
Qed.

Lemma perform_preserves_navLockInv e o d :
  navLockInv d -> navLockInv (exec (perform e o) d).
Proof.
  unfold navLockInv. destruct o; simpl.
  - destruct d as [st ? ? ? ? ? ? ? ? ? ? ? ? ? ?]; unfold_eff; simpl.
    destruct st; simpl; auto.
    match goal with |- context [if ?b then _ else _] => destruct b end; simpl; auto.
  - destruct d; reflexivity.
  - destruct d; reflexivity.
  - intros Hinv. crush_director d; try reflexivity; try assumption;
      match goal with
      | H : DirectorState_eqb ?s Armed = false,
        H' : DirectorState_eqb ?s Active = false |- _ =>
          destruct s; simpl in *; try discriminate; assumption
      end.
  - destruct d; simpl; auto.
Qed.

(** C8: at construction and after any sequence of [arm], [activate],
    [deactivate], [update] calls (and callback assignments), the nav-lock
    indicator is true exactly when the state is not Inactive. *)
Theorem navLock_mirrors_engagement e0 options (l : list (Env * Op)) :
  let d := run l (new e0 options) in
  isNavLock d = negb (DirectorState_eqb (state d) Inactive).
Proof.
  simpl. change (navLockInv (run l (new e0 options))).
  assert (Hnew : navLockInv (new e0 options)) by reflexivity.
  revert Hnew. generalize (new e0 options) as d.
  induction l as [|[e o] l IH]; intros d Hd; simpl.
  - exact Hd.
  - apply IH. apply perform_preserves_navLockInv. exact Hd.
Qed.

(** C9: on a tick that activates from Armed, the Active block runs in the
    same [update]: when [canRemainActive] holds on the same snapshot and
    the roll command is valid with a finite bank angle, the tick ends
    Active and the calls made are the activate callback followed by one
    drive of the bank sink with that bank angle (each when assigned). *)
Theorem update_activates_and_drives e d :
  state d = Armed ->
  let ap := apValues e in
  let cb := tickCallbackState e d in
  let roll := tickRollCommand e d in
  canRemainArmedFunc d ap cb = true ->
  canActivateFunc d ap cb = true ->
  canRemainActiveFunc d ap cb = true ->
  RollSteer.isValid roll = true ->
  isFinite (RollSteer.desiredBankAngle roll) = true ->
  state (exec (update e) d) = Active
  /\ calls (update e) d =
       (if onActivate d then [CallOnActivate] else [])
       ++ (if driveBank d
           then [CallDriveBank (RollSteer.desiredBankAngle roll) (driveRate e d)]
           else []).
Proof.
  intros Hs ap cb roll. subst ap cb roll.
  destruct d as [st act ? ? drive ? ? ? rateOpt ? ? ? ? ? ?].
  unfold tickCallbackState, tickRollCommand, driveRate; simpl in *; subst.
  intros H1 H2 H3 H4 H5. unfold_eff; simpl.
  rewrite H1; simpl. rewrite H2; simpl. rewrite H3; simpl.
  rewrite H4, H5; simpl.
  destruct rateOpt, act, drive; simpl; split; reflexivity.
Qed.

(** C10: an [update] while Inactive leaves the state, the indicator and
    the bank sink alone (no call is made), yet refreshes the navigation
    snapshot, the roll-steer computer and the guard snapshot. *)
Theorem update_while_Inactive e d :
  state d = Inactive ->
  let d' := exec (update e) d in
  state d' = Inactive
  /\ isNavLock d' = isNavLock d
  /\ calls (update e) d = []
  /\ lnavRollSteerComputerDataProvider d'
     = DataProvider_update e (lnavRollSteerComputerDataProvider d)
  /\ lnavRollSteerComputer d'
     = computer_update (steerCommand e)
         (DataProvider_update e (lnavRollSteerComputerDataProvider d))
         (maxBankAngleFunc d e) (dateNow e) (lnavRollSteerComputer d)
  /\ callbackState d' = tickCallbackState e d
  /\ d' = refreshed e d.
Proof.
  intros Hs d'. subst d'. unfold exec, calls.
  rewrite (update_from_Inactive e d Hs). simpl.
  repeat split. exact Hs.
Qed.

Lemma perform_opEdge e o d :
  opEdge (o, state d, state (exec (perform e o) d)) = true.
Proof.
  destruct o; simpl.
  - destruct d as [st ? ? ? ? ? ? ? ? ? ? ? ? ? ?]; unfold_eff; simpl.
    destruct st; simpl; auto.
    match goal with |- context [if ?b then _ else _] => destruct b end; reflexivity.
  - destruct d as [st ? ? ? ? ? ? ? ? ? ? ? ? ? ?]; destruct st; reflexivity.
  - destruct d as [st ? ? ? ? ? ? ? ? ? ? ? ? ? ?]; destruct st; reflexivity.
  - destruct d as [st ? ? ? ? ? ? ? ? ? ? ? ? ? ?].
    destruct st; unfold_eff; simpl;
      repeat match goal with
        | |- context [if negb ?b then _ else _] => destruct b eqn:?; simpl
        | |- context [if ?b then _ else _] => destruct b eqn:?; simpl
        | |- context [match ?b with OptNumber _ => _ | _ => _ end] =>
            destruct b eqn:?; simpl
        end; reflexivity.
  - destruct d as [st ? ? ? ? ? ? ? ? ? ? ? ? ? ?]; destruct st; reflexivity.
Qed.

Lemma opEdge_claimed o s s' :
  opEdge (o, s, s') = true -> isActivate o || claimedEdge s s' = true.
Proof. destruct o, s, s'; simpl; congruence. Qed.

(** C1 (as amended): along every sequence of operations each call changes
    the state only along the edges of its operation: [arm] Inactive to
    Armed; [update] Armed to Active, Armed to Inactive, Active to Inactive;
    [deactivate] any state to Inactive; [activate] any state to Active.
    Apart from direct calls of [activate], every change follows
    Inactive-Armed-Active-Inactive, so Active is then entered from Armed
    only. *)
Theorem transitions_follow_op_edges (l : list (Env * Op)) d :
  forallb opEdge (transitions l d) = true
  /\ alongClaimedEdgesButActivate (transitions l d) = true.
Proof.
  unfold alongClaimedEdgesButActivate.
  revert d. induction l as [|[e o] l IH]; intros d; simpl.
  - split; reflexivity.
  - destruct (IH (exec (perform e o) d)) as [IH1 IH2].
    pose proof (perform_opEdge e o d) as Hedge.
    split; apply andb_true_intro; split; auto.
    apply opEdge_claimed. exact Hedge.
Qed.

(** ** Further properties of the director *)

Ltac split_ifs :=
  repeat match goal with
    | |- context [if negb ?b then _ else _] => destruct b eqn:?; simpl in *
    | |- context [if ?b then _ else _] => destruct b eqn:?; simpl in *
    | |- context [match ?b with OptNumber _ => _ | _ => _ end] =>
        destruct b eqn:?; simpl in *
    end.

(** Destructs the director and its engagement state, then every guard. *)
Ltac by_state d :=
  let st := fresh "st" in
  destruct d as [st ? ? ? ? ? ? ? ? ? ? ? ? ? ?];
  unfold tickCallbackState, tickRollCommand, driveRate in *; simpl in *;
  destruct st; unfold_eff; simpl in *; split_ifs.

Ltac use_membership :=
  repeat match goal with
    | H : _ \/ _ |- _ => destruct H
    | H : False |- _ => destruct H
    | H : CallDriveBank _ _ = CallDriveBank _ _ |- _ => inversion H; clear H; subst
    | H : _ && _ = true |- _ => apply andb_prop in H; destruct H
    | H : _ /\ _ |- _ => destruct H
    end.

(** X1: One [update] calls the bank sink at most once; when it does, a sink is
    assigned, the tick ends Active, and the rate argument is the one the
    bank-rate option prescribes. *)
Theorem update_drives_at_most_once e d :
  length (filter isDriveBank (calls (update e) d)) <= 1
  /\ (forall bank rate,
        In (CallDriveBank bank rate) (calls (update e) d) ->
        driveBank d = true
        /\ state (exec (update e) d) = Active
        /\ rate = driveRate e d).
Proof.
  by_state d; (split; [simpl; auto | intros bank rate Hin]);
    use_membership; try discriminate; auto.
Qed.

(** X2: The lifecycle callbacks one [update] can fire: never the arm callback;
    the activate callback only from Armed; the deactivate callback exactly
    when the tick takes an engaged director to Inactive (and a callback is
    assigned).  The log is an optional activate call followed by at most one
    of: a deactivate call, a drive of the bank sink. *)
Theorem update_lifecycle_calls e d :
  let d' := exec (update e) d in
  let l := calls (update e) d in
  ~ In CallOnArm l
  /\ (In CallOnActivate l -> state d = Armed /\ onActivate d = true)
  /\ (In CallOnDeactivate l <->
      state d <> Inactive /\ state d' = Inactive /\ onDeactivate d = true)
  /\ exists pre post,
      l = pre ++ post
      /\ (pre = [] \/ pre = [CallOnActivate])
      /\ (post = [] \/ post = [CallOnDeactivate]
          \/ exists bank rate, post = [CallDriveBank bank rate]).
Proof.
  intros d' l. subst d' l.
  by_state d; (split; [|split; [|split]]);
    try (intros Hin; simpl in Hin; use_membership; try discriminate; auto; fail);
    try (split; intros Hin; simpl in *; use_membership;
         try discriminate; try congruence; auto;
         repeat split; auto; congruence);
    try solve [ (exists (@nil Call) + exists [CallOnActivate]); eexists;
                (split; [reflexivity|]); split; [tauto | eauto 6] ].
Qed.

(** X3: Whatever the state, one [update] stores the fresh navigation snapshot
    and the current steering command; the roll-steer computer is the updated
    one, reset in addition exactly when the tick disengaged the director; on
    a tick that does not disengage, the guard snapshot holds this tick's
    roll command. *)
Theorem update_refreshes_in_every_state e d :
  let d' := exec (update e) d in
  let updated :=
    computer_update (steerCommand e)
      (DataProvider_update e (lnavRollSteerComputerDataProvider d))
      (maxBankAngleFunc d e) (dateNow e) (lnavRollSteerComputer d) in
  let disengaged :=
    negb (DirectorState_eqb (state d) Inactive)
    && DirectorState_eqb (state d') Inactive in
  lnavRollSteerComputerDataProvider d'
  = DataProvider_update e (lnavRollSteerComputerDataProvider d)
  /\ gpsSteerCommand (callbackState d') = steerCommand e
  /\ lnavRollSteerComputer d'
     = (if disengaged then computer_reset updated else updated)
  /\ (disengaged = false -> callbackState d' = tickCallbackState e d).
Proof.
  intros d' updated disengaged. subst d' updated disengaged.
  by_state d; repeat split; intros; try reflexivity; discriminate.
Qed.

(** X4: A second [deactivate] in a row keeps the director Inactive with the
    indicator false, but is no no-op: it fires the deactivate callback again
    and resets the roll-steer computer again; nothing else changes. *)
Theorem deactivate_twice d :
  let d1 := exec deactivate d in
  let d2 := exec deactivate d1 in
  state d2 = Inactive
  /\ isNavLock d2 = false
  /\ d2 = set_computer (computer_reset (lnavRollSteerComputer d1)) d1
  /\ calls deactivate d1 = calls deactivate d.
Proof.
  destruct d; unfold_eff; simpl. repeat split.
Qed.

Lemma perform_configuration e o d :
  configuration (exec (perform e o) d) = configuration d.
Proof.
  unfold configuration. destruct o; simpl; try (destruct d; reflexivity).
  - by_state d; reflexivity.
  - by_state d; reflexivity.
Qed.

Lemma run_configuration (l : list (Env * Op)) d :
  configuration (run l d) = configuration d.
Proof.
  revert d. induction l as [|[e o] l IH]; intros d; simpl.
  - reflexivity.
  - rewrite IH. apply perform_configuration.
Qed.

(** X5: The configuration chosen by the constructor is permanent: after any
    sequence of operations the bank limit, the bank rate option and the four
    guards are still the ones derived from the constructor's options, with
    the documented defaults where an option is absent. *)
Theorem constructor_configuration_is_permanent e0 options (l : list (Env * Op)) :
  let o := orDefault options noOptions in
  let d := run l (new e0 options) in
  maxBankAngleFunc d = mkMaxBankAngleFunc (optMaxBankAngle o)
  /\ bankRateOpt d = optBankRate o
  /\ canArmFunc d = orDefault (canArm o) defaultCanArm
  /\ canRemainArmedFunc d = orDefault (canRemainArmed o) defaultCanRemainArmed
  /\ canActivateFunc d = orDefault (canActivate o) defaultCanActivate
  /\ canRemainActiveFunc d = orDefault (canRemainActive o) defaultCanRemainActive.
Proof.
  intros o d. subst o d.
  pose proof (run_configuration l (new e0 options)) as Hc.
  unfold configuration in Hc. simpl in Hc.
  injection Hc as H1 H2 H3 H4 H5 H6.
  repeat split; assumption.
Qed.

Lemma perform_callbackSlots e o d :
  isAssign o = false -> callbackSlots (exec (perform e o) d) = callbackSlots d.
Proof.
  unfold callbackSlots. destruct o; simpl; intros Ha; try discriminate;
    try (destruct d; reflexivity); by_state d; reflexivity.
Qed.

Lemma perform_provider e o d :
  isUpdate o = false ->
  lnavRollSteerComputerDataProvider (exec (perform e o) d)
  = lnavRollSteerComputerDataProvider d.
Proof.
  destruct o; simpl; intros Hu; try discriminate;
    try (destruct d; reflexivity); by_state d; reflexivity.
Qed.

(** X6: The methods never touch the callback slots (only the owner's
    assignments do), and only [update] stores a navigation snapshot: a
    sequence without assignments keeps the slots, a sequence without
    [update] keeps the data provider's values. *)
Theorem methods_keep_slots_and_snapshot (l : list (Env * Op)) d :
  (forallb (fun eo => negb (isAssign (snd eo))) l = true ->
   callbackSlots (run l d) = callbackSlots d)
  /\ (forallb (fun eo => negb (isUpdate (snd eo))) l = true ->
      lnavRollSteerComputerDataProvider (run l d)
      = lnavRollSteerComputerDataProvider d).
Proof.
  split; revert d; induction l as [|[e o] l IH]; intros d Hall; simpl in *;
    try reflexivity;
    apply andb_prop in Hall; destruct Hall as [Ho Hl];
    apply negb_true_iff in Ho; rewrite (IH _ Hl).
  - apply perform_callbackSlots. exact Ho.
  - apply perform_provider. exact Ho.
Qed.

Lemma perform_stays_Inactive e o d :
  state d = Inactive -> engages o = false ->
  state (exec (perform e o) d) = Inactive
  /\ (forall c, In c (calls (perform e o) d) -> c = CallOnDeactivate).
Proof.
  destruct o; simpl; intros Hs He; try discriminate.
  - destruct d as [? ? ? deact ? ? ? ? ? ? ? ? ? ? ?]; unfold_eff; simpl.
    split; [reflexivity|]. destruct deact; simpl; intros c Hin; use_membership; auto.
  - unfold exec, calls. rewrite (update_from_Inactive e d Hs). simpl.
    split; [destruct d; exact Hs | intros c []].
  - destruct d; simpl in *. split; [exact Hs | intros c []].
Qed.

(** X7: The director never engages by itself: from Inactive, a sequence of
    operations without [arm] and [activate] leaves it Inactive, and the only
    outside calls it can make are deactivate callbacks; in particular the
    bank sink is never driven. *)
Theorem stays_Inactive_until_engaged (l : list (Env * Op)) d :
  state d = Inactive ->
  forallb (fun eo => negb (engages (snd eo))) l = true ->
  state (run l d) = Inactive
  /\ (forall c, In c (runCalls l d) -> c = CallOnDeactivate).
Proof.
  revert d. induction l as [|[e o] l IH]; intros d Hs Hall; simpl in *.
  - split; [exact Hs | intros c []].
  - apply andb_prop in Hall. destruct Hall as [Ho Hl].
    apply negb_true_iff in Ho.
    destruct (perform_stays_Inactive e o d Hs Ho) as [Hs' Hc].
    destruct (IH _ Hs' Hl) as [Hfinal Hrest].
    split; [exact Hfinal|].
    intros c Hin. apply in_app_or in Hin. destruct Hin; auto.
Qed.

Lemma perform_drive_count e o d :
  length (filter isDriveBank (calls (perform e o) d))
  <= (if isUpdate o then 1 else 0).
Proof.
  destruct o; simpl; by_state d; simpl; auto.
Qed.

(** X8: Over a whole sequence of operations the bank sink is driven at most
    once per [update]; no other operation drives it. *)
Theorem drives_at_most_once_per_update (l : list (Env * Op)) d :
  length (filter isDriveBank (runCalls l d))
  <= length (filter (fun eo => isUpdate (snd eo)) l).
Proof.
  revert d. induction l as [|[e o] l IH]; intros d; simpl.
  - auto.
  - rewrite filter_app, length_app.
    pose proof (perform_drive_count e o d) as Hc.
    pose proof (IH (exec (perform e o) d)) as Hr.
    destruct (isUpdate o); simpl; lia.
Qed.

Lemma constructed_guards e0 options (l : list (Env * Op)) :
  let o := orDefault options noOptions in
  let d := run l (new e0 options) in
  (canArm o = None -> canArmFunc d = defaultCanArm)
  /\ (canRemainArmed o = None -> canRemainArmedFunc d = defaultCanRemainArmed)
  /\ (canActivate o = None -> canActivateFunc d = defaultCanActivate)
  /\ (canRemainActive o = None -> canRemainActiveFunc d = defaultCanRemainActive)
  /\ bankRateOpt d = optBankRate o.
Proof.
  intros o d. subst o d.
  pose proof (run_configuration l (new e0 options)) as Hc.
  unfold configuration in Hc. simpl in Hc.
  injection Hc as H1 H2 H3 H4 H5 H6.
  repeat split; try assumption; intros Hnone;
    rewrite Hnone in *; assumption.
Qed.

Lemma default_arm_outcome e d :
  canArmFunc d = defaultCanArm ->
  state d = Inactive ->
  (state (exec (arm e) d) = Armed <-> GpsSteer.isValid (steerCommand e) = true).
Proof.
  destruct d; simpl; intros -> ->. unfold_eff; unfold defaultCanArm; simpl.
  destruct (GpsSteer.isValid (steerCommand e)); simpl; split; congruence.
Qed.

Lemma update_end_state_from_Armed e d :
  state d = Armed ->
  state (exec (update e) d)
  = (if canRemainArmedFunc d (apValues e) (tickCallbackState e d)
     then if canActivateFunc d (apValues e) (tickCallbackState e d)
          then if canRemainActiveFunc d (apValues e) (tickCallbackState e d)
               then Active else Inactive
          else Armed
     else Inactive).
Proof.
  intros Hs. crush_director d; congruence.
Qed.

Lemma update_end_state_from_Active e d :
  state d = Active ->
  state (exec (update e) d)
  = (if canRemainActiveFunc d (apValues e) (tickCallbackState e d)
     then Active else Inactive).
Proof.
  intros Hs. crush_director d; congruence.
Qed.

Lemma default_tick_from_Armed e d :
  canRemainArmedFunc d = defaultCanRemainArmed ->
  canActivateFunc d = defaultCanActivate ->
  canRemainActiveFunc d = defaultCanRemainActive ->
  state d = Armed ->
  let d' := exec (update e) d in
  let steerValid := GpsSteer.isValid (steerCommand e) in
  let rollValid := RollSteer.isValid (tickRollCommand e d) in
  let authority := gpsHasAuthority (apValues e) in
  (state d' = Active <-> steerValid = true /\ rollValid = true /\ authority = true)
  /\ (state d' = Armed <-> steerValid = true /\ rollValid = false)
  /\ (state d' = Inactive <->
      steerValid = false \/ (rollValid = true /\ authority = false)).
Proof.
  intros G1 G2 G3 Hs d' steerValid rollValid authority.
  subst d'. rewrite (update_end_state_from_Armed e d Hs), G1, G2, G3.
  unfold defaultCanRemainArmed, defaultCanActivate, defaultCanRemainActive,
    tickCallbackState; simpl.
  fold steerValid rollValid. change (isGpsSource _ || _) with authority.
  destruct steerValid, rollValid, authority; simpl;
    repeat split; intros; use_membership; try congruence; auto.
Qed.

Lemma default_tick_from_Active e d :
  canRemainActiveFunc d = defaultCanRemainActive ->
  state d = Active ->
  let d' := exec (update e) d in
  let rollValid := RollSteer.isValid (tickRollCommand e d) in
  let authority := gpsHasAuthority (apValues e) in
  (state d' = Active <-> rollValid = true /\ authority = true)
  /\ (state d' = Inactive <-> rollValid = false \/ authority = false).
Proof.
  intros G3 Hs d' rollValid authority.
  subst d'. rewrite (update_end_state_from_Active e d Hs), G3.
  unfold defaultCanRemainActive, tickCallbackState; simpl.
  fold rollValid. change (isGpsSource _ || _) with authority.
  destruct rollValid, authority; simpl;
    repeat split; intros; use_membership; try congruence; auto.
Qed.

(** X9: Default arming policy: a director constructed without a [canArm]
    override, Inactive at any point of its life, is armed by [arm] exactly
    when the steering command read at that moment is valid. *)
Theorem default_guards_arm e0 options (l : list (Env * Op)) e :
  canArm (orDefault options noOptions) = None ->
  let d := run l (new e0 options) in
  state d = Inactive ->
  (state (exec (arm e) d) = Armed <-> GpsSteer.isValid (steerCommand e) = true).
Proof.
  intros Hopt d Hs. apply default_arm_outcome; [|exact Hs].
  apply (constructed_guards e0 options l). exact Hopt.
Qed.

(** X10: Default policy on a tick from Armed: without guard overrides the tick
    ends Active exactly when the steering command and this tick's roll
    command are valid and GPS has authority (GPS CDI source or nav-to-nav
    transfer); it stays Armed when the steering command is valid and the
    roll command is not; it ends Inactive when the steering command is
    invalid, or when the roll command is valid but GPS has no authority. *)
Theorem default_guards_tick_from_Armed e0 options (l : list (Env * Op)) e :
  let o := orDefault options noOptions in
  canRemainArmed o = None -> canActivate o = None -> canRemainActive o = None ->
  let d := run l (new e0 options) in
  state d = Armed ->
  let d' := exec (update e) d in
  let steerValid := GpsSteer.isValid (steerCommand e) in
  let rollValid := RollSteer.isValid (tickRollCommand e d) in
  let authority := gpsHasAuthority (apValues e) in
  (state d' = Active <-> steerValid = true /\ rollValid = true /\ authority = true)
  /\ (state d' = Armed <-> steerValid = true /\ rollValid = false)
  /\ (state d' = Inactive <->
      steerValid = false \/ (rollValid = true /\ authority = false)).
Proof.
  intros o H1 H2 H3 d Hs.
  destruct (constructed_guards e0 options l) as (_ & G1 & G2 & G3 & _).
  apply default_tick_from_Armed; auto.
Qed.

(** X11: Default policy on a tick from Active: without a [canRemainActive]
    override the director stays Active exactly when this tick's roll command
    is valid and GPS has authority, and disengages otherwise; the validity
    flag of the steering command itself is not consulted. *)
Theorem default_guards_tick_from_Active e0 options (l : list (Env * Op)) e :
  canRemainActive (orDefault options noOptions) = None ->
  let d := run l (new e0 options) in
  state d = Active ->
  let d' := exec (update e) d in
  let rollValid := RollSteer.isValid (tickRollCommand e d) in
  let authority := gpsHasAuthority (apValues e) in
  (state d' = Active <-> rollValid = true /\ authority = true)
  /\ (state d' = Inactive <-> rollValid = false \/ authority = false).
Proof.
  intros H3 d Hs.
  destruct (constructed_guards e0 options l) as (_ & _ & _ & G3 & _).
  apply default_tick_from_Active; auto.
Qed.

Lemma update_drive_rate e d bank rate :
  In (CallDriveBank bank rate) (calls (update e) d) -> rate = driveRate e d.
Proof.
  revert bank rate. by_state d; intros bank rate Hin;
    use_membership; try discriminate; auto.
Qed.

(** X12: The rate passed to the bank sink follows the constructor's [bankRate]
    option for the whole life of the director: a number is multiplied by
    the simulation rate, a function is called and its result multiplied by
    the simulation rate, and without the option no rate is passed. *)
Theorem drive_rate_follows_option e0 options (l : list (Env * Op)) e bank rate :
  let d := run l (new e0 options) in
  In (CallDriveBank bank rate) (calls (update e) d) ->
  rate = match optBankRate (orDefault options noOptions) with
         | OptNumber n => Some (mul n (simRate (apValues e)))
         | OptFunction f => Some (mul (f e) (simRate (apValues e)))
         | OptUndefined => None
         end.
Proof.
  intros d Hin. apply update_drive_rate in Hin. rewrite Hin.
  unfold driveRate.
  destruct (constructed_guards e0 options l) as (_ & _ & _ & _ & Hrate).
  fold d in Hrate. rewrite Hrate. reflexivity.
Qed.

(** X13: Edge behaviour of the data provider: the result does not depend on the
    previous snapshot; ground speed, track and heading are never null after
    an update; heading is always the raw reading; at a ground speed of
    exactly 1 knot or NaN the track falls back to the heading reading (the
    threshold is strict and comparisons with NaN are false), while an
    infinite ground speed takes the [atan2] branch. *)
Theorem DataProvider_update_edges e (p q : DataProvider) :
  let vEW := velocityWorldX e in
  let vNS := velocityWorldZ e in
  let p' := DataProvider_update e p in
  p' = DataProvider_update e q
  /\ heading p' = Some (planeHeadingTrue e)
  /\ gs p' <> None /\ track p' <> None
  /\ (hypot vEW vNS = 1%float -> track p' = Some (planeHeadingTrue e))
  /\ (hypot vEW vNS = nan -> track p' = Some (planeHeadingTrue e))
  /\ (hypot vEW vNS = infinity ->
      track p' = Some (normalizeAngleDeg (mul (atan2 vEW vNS) RAD2DEG))).
Proof.
  intros vEW vNS p'. subst vEW vNS p'. unfold DataProvider_update.
  split; [reflexivity|].
  split; [destruct (gtb _ _); reflexivity|].
  split; [destruct (gtb _ _); discriminate|].
  split; [destruct (gtb _ _); discriminate|].
  split; [intros ->; reflexivity|].
  split; intros ->; reflexivity.
Qed.

End DirectorProperties.

(** * Closed examples *)

#[local] Existing Instance sampleComputer.
#[local] Existing Instance sampleMath.

(** C1, counterexample: a direct [activate] on a fresh director takes the
    state from Inactive to Active, which is none of the claimed edges. *)
Lemma activate_from_Inactive_counterexample :
  transitions [(sampleEnv true 5%float gpsSource, OpActivate)] sampleNew
  = [(OpActivate, Inactive, Active)]
  /\ alongClaimedEdges
       (transitions [(sampleEnv true 5%float gpsSource, OpActivate)] sampleNew)
     = false.
Proof. split; reflexivity. Qed.

(** C3, counterexample: armed, steering command and roll command valid, but
    the CDI source is not GPS: [canRemainArmed] and [canActivate] hold, the
    director activates, [canRemainActive] fails in the same tick and the
    tick ends Inactive. *)
Lemma update_from_Armed_counterexample :
  let e := sampleEnv true 5%float navSource in
  let cb := tickCallbackState e sampleArmed in
  state sampleArmed = Armed
  /\ ~ (state (exec (update e) sampleArmed) = Active
        <-> canRemainArmedFunc sampleArmed (apValues e) cb = true
            /\ canActivateFunc sampleArmed (apValues e) cb = true).
Proof.
  split; [reflexivity|].
  intros [_ Hback].
  specialize (Hback (conj eq_refl eq_refl)).
  vm_compute in Hback. discriminate Hback.
Qed.

(** An armed director: with a NAV source selected one tick activates and
    deactivates it, firing both callbacks in that order; with the GPS source
    the tick ends Active. *)
Lemma update_from_Armed_end_state_witness :
  state (exec (update (sampleEnv true 5%float navSource)) sampleArmed) = Inactive
  /\ calls (update (sampleEnv true 5%float navSource)) sampleArmed
     = [CallOnActivate; CallOnDeactivate]
  /\ state (exec (update (sampleEnv true 5%float gpsSource)) sampleArmed) = Active.
Proof.
  destruct (update_from_Armed_end_state (sampleEnv true 5%float navSource) sampleArmed
              eq_refl) as (_ & _ & _ & Hends & _ & _ & Hcalls).
  destruct (update_from_Armed_end_state (sampleEnv true 5%float gpsSource) sampleArmed
              eq_refl) as (Hactive & _).
  split; [apply Hends; reflexivity|].
  split; [exact (proj1 (Hcalls eq_refl eq_refl eq_refl))|].
  apply Hactive. repeat split; reflexivity.
Defined.

(** An active director: a bank of -5 degrees is driven; an infinite
    track-angle error yields an infinite bank angle, and no drive call. *)
Lemma update_drive_bank_finite_witness :
  isFinite (-5)%float = true
  /\ filter isDriveBank (calls (update (sampleEnv true infinity gpsSource)) sampleActive)
     = [].
Proof.
  split.
  - apply (proj1 (update_drive_bank_finite (sampleEnv true 5%float gpsSource) sampleActive)
             (-5)%float None).
    vm_compute. left. reflexivity.
  - apply (proj2 (update_drive_bank_finite (sampleEnv true infinity gpsSource) sampleActive)).
    right. reflexivity.
Defined.

(** An active director: an invalid steering command ends the engagement,
    a valid one keeps it. *)
Lemma update_from_Active_witness :
  state (exec (update (sampleEnv false 5%float gpsSource)) sampleActive) = Inactive
  /\ state (exec (update (sampleEnv true 5%float gpsSource)) sampleActive) = Active.
Proof.
  split.
  - apply (update_from_Active (sampleEnv false 5%float gpsSource) sampleActive);
      reflexivity.
  - destruct (update_from_Active (sampleEnv true 5%float gpsSource) sampleActive eq_refl)
      as (_ & Hstay & _).
    apply Hstay. reflexivity.
Defined.

(** Deactivating an active director calls the on-deactivate callback once. *)
Lemma deactivate_spec_witness :
  length (filter isOnDeactivate (calls deactivate sampleActive)) = 1.
Proof.
  apply (deactivate_spec sampleActive). reflexivity.
Defined.

(** Arming a fresh director with a valid, then an invalid steering command,
    then arming an already active one. *)
Lemma arm_spec_witness :
  (state (exec (arm (sampleEnv true 5%float gpsSource)) sampleWired) = Armed
   /\ isNavLock (exec (arm (sampleEnv true 5%float gpsSource)) sampleWired) = true
   /\ calls (arm (sampleEnv true 5%float gpsSource)) sampleWired = [CallOnArm])
  /\ (state (exec (arm (sampleEnv false 5%float gpsSource)) sampleWired) = Inactive
      /\ isNavLock (exec (arm (sampleEnv false 5%float gpsSource)) sampleWired) = false
      /\ calls (arm (sampleEnv false 5%float gpsSource)) sampleWired = [])
  /\ (exec (arm (sampleEnv true 5%float gpsSource)) sampleActive = sampleActive
      /\ calls (arm (sampleEnv true 5%float gpsSource)) sampleActive = []).
Proof.
  split; [|split].
  - apply (arm_spec (sampleEnv true 5%float gpsSource) sampleWired); reflexivity.
  - apply (arm_spec (sampleEnv false 5%float gpsSource) sampleWired); reflexivity.
  - apply (arm_spec (sampleEnv true 5%float gpsSource) sampleActive).
    vm_compute. discriminate.
Defined.

(** Northbound at 50 knots, then at half a knot with heading 10 degrees. *)
Lemma DataProvider_update_spec_witness :
  (gs (DataProvider_update (sampleEnv true 5%float gpsSource) newDataProvider)
   = Some 50%float
   /\ track (DataProvider_update (sampleEnv true 5%float gpsSource) newDataProvider)
      = Some 0%float)
  /\ track (DataProvider_update
              {| apValues := apValues (sampleEnv true 5%float gpsSource);
                 steerCommand := sampleCommand true 5%float;
                 velocityWorldX := 0%float; velocityWorldZ := 0.5%float;
                 planeHeadingTrue := 10%float; dateNow := 1000%Z |}
              newDataProvider)
     = Some 10%float.
Proof.
  split.
  - apply (DataProvider_update_spec (sampleEnv true 5%float gpsSource) newDataProvider);
      reflexivity.
  - apply (DataProvider_update_spec
             {| apValues := apValues (sampleEnv true 5%float gpsSource);
                steerCommand := sampleCommand true 5%float;
                velocityWorldX := 0%float; velocityWorldZ := 0.5%float;
                planeHeadingTrue := 10%float; dateNow := 1000%Z |}
             newDataProvider).
    reflexivity.
Defined.

(** The tick that activates the armed director also drives the bank. *)
Lemma update_activates_and_drives_witness :
  state (exec (update (sampleEnv true 5%float gpsSource)) sampleArmed) = Active
  /\ calls (update (sampleEnv true 5%float gpsSource)) sampleArmed
     = [CallOnActivate; CallDriveBank (-5)%float None].
Proof.
  exact (update_activates_and_drives (sampleEnv true 5%float gpsSource) sampleArmed
           eq_refl eq_refl eq_refl eq_refl eq_refl eq_refl).
Defined.

(** A tick on an inactive director refreshes the guard snapshot only. *)
Lemma update_while_Inactive_witness :
  state (exec (update (sampleEnv true 5%float gpsSource)) sampleWired) = Inactive
  /\ calls (update (sampleEnv true 5%float gpsSource)) sampleWired = []
  /\ callbackState (exec (update (sampleEnv true 5%float gpsSource)) sampleWired)
     = {| gpsSteerCommand := sampleCommand true 5%float;
          rollSteerCommand :=
            Some {| RollSteer.isValid := true;
                    RollSteer.desiredBankAngle := (-5)%float |} |}.
Proof.
  pose proof (update_while_Inactive (sampleEnv true 5%float gpsSource) sampleWired eq_refl)
    as (Hs & _ & Hc & _ & _ & Hcb & _).
  split; [exact Hs | split; [exact Hc | exact Hcb]].
Defined.

(** ** Examples for the further properties *)

(** The activating tick of the sample director drives the bank once. *)
Lemma update_drives_at_most_once_witness :
  driveBank sampleArmed = true
  /\ state (exec (update (sampleEnv true 5%float gpsSource)) sampleArmed) = Active
  /\ None = driveRate (sampleEnv true 5%float gpsSource) sampleArmed.
Proof.
  apply (proj2 (update_drives_at_most_once (sampleEnv true 5%float gpsSource) sampleArmed)
           (-5)%float None).
  vm_compute. right. left. reflexivity.
Defined.

(** An armed director whose steering command turns invalid is disengaged by
    the tick, which fires the deactivate callback; the activating tick fires
    the activate callback. *)
Lemma update_lifecycle_calls_witness :
  In CallOnDeactivate (calls (update (sampleEnv false 5%float gpsSource)) sampleArmed)
  /\ state sampleArmed = Armed /\ onActivate sampleArmed = true.
Proof.
  destruct (update_lifecycle_calls (sampleEnv false 5%float gpsSource) sampleArmed)
    as (_ & _ & Hdeact & _).
  destruct (update_lifecycle_calls (sampleEnv true 5%float gpsSource) sampleArmed)
    as (_ & Hact & _ & _).
  split.
  - apply Hdeact. split; [vm_compute; discriminate | split; reflexivity].
  - apply Hact. vm_compute. left. reflexivity.
Defined.

(** A tick that keeps the sample director Active leaves this tick's roll
    command in the guard snapshot. *)
Lemma update_refreshes_in_every_state_witness :
  callbackState (exec (update (sampleEnv true 7%float gpsSource)) sampleActive)
  = tickCallbackState (sampleEnv true 7%float gpsSource) sampleActive.
Proof.
  destruct (update_refreshes_in_every_state (sampleEnv true 7%float gpsSource) sampleActive)
    as (_ & _ & _ & Hsnap).
  apply Hsnap. reflexivity.
Defined.

(** Arming and ticking keep the assigned callbacks; arming and
    deactivating keep the null navigation snapshot of a new director. *)
Lemma methods_keep_slots_and_snapshot_witness :
  callbackSlots
    (run [ (sampleEnv true 5%float gpsSource, OpArm);
           (sampleEnv true 5%float gpsSource, OpUpdate) ] sampleWired)
  = (true, true, true, true)
  /\ lnavRollSteerComputerDataProvider
       (run [ (sampleEnv true 5%float gpsSource, OpArm);
              (sampleEnv true 5%float gpsSource, OpDeactivate) ] sampleWired)
     = newDataProvider.
Proof.
  split.
  - apply (proj1 (methods_keep_slots_and_snapshot
                    [ (sampleEnv true 5%float gpsSource, OpArm);
                      (sampleEnv true 5%float gpsSource, OpUpdate) ] sampleWired)).
    reflexivity.
  - apply (proj2 (methods_keep_slots_and_snapshot
                    [ (sampleEnv true 5%float gpsSource, OpArm);
                      (sampleEnv true 5%float gpsSource, OpDeactivate) ] sampleWired)).
    reflexivity.
Defined.

(** Ticks and a deactivate on a director that was never armed. *)
Lemma stays_Inactive_until_engaged_witness :
  state (run [ (sampleEnv true 5%float gpsSource, OpUpdate);
               (sampleEnv true 5%float gpsSource, OpDeactivate);
               (sampleEnv true 5%float gpsSource, OpUpdate) ] sampleWired)
  = Inactive.
Proof.
  apply (stays_Inactive_until_engaged
           [ (sampleEnv true 5%float gpsSource, OpUpdate);
             (sampleEnv true 5%float gpsSource, OpDeactivate);
             (sampleEnv true 5%float gpsSource, OpUpdate) ] sampleWired);
    reflexivity.
Defined.

(** A director built without options is armed by a valid steering command. *)
Lemma default_guards_arm_witness :
  state (exec (arm (sampleEnv true 5%float gpsSource))
           (run [ (sampleEnv true 5%float gpsSource, OpUpdate) ]
              (new (sampleEnv true 5%float gpsSource) None)))
  = Armed.
Proof.
  apply (default_guards_arm (sampleEnv true 5%float gpsSource) None
           [ (sampleEnv true 5%float gpsSource, OpUpdate) ]
           (sampleEnv true 5%float gpsSource) eq_refl eq_refl).
  reflexivity.
Defined.

(** The armed default director: Active after a tick with GPS authority,
    Inactive after a tick without. *)
Lemma default_guards_tick_from_Armed_witness :
  state (exec (update (sampleEnv true 5%float gpsSource))
           (run sampleLifeArmed (new (sampleEnv true 5%float gpsSource) None)))
  = Active
  /\ state (exec (update (sampleEnv true 5%float navSource))
              (run sampleLifeArmed (new (sampleEnv true 5%float gpsSource) None)))
     = Inactive.
Proof.
  split.
  - destruct (default_guards_tick_from_Armed (sampleEnv true 5%float gpsSource) None
                sampleLifeArmed (sampleEnv true 5%float gpsSource)
                eq_refl eq_refl eq_refl eq_refl) as (Hactive & _ & _).
    apply Hactive. repeat split.
  - destruct (default_guards_tick_from_Armed (sampleEnv true 5%float gpsSource) None
                sampleLifeArmed (sampleEnv true 5%float navSource)
                eq_refl eq_refl eq_refl eq_refl) as (_ & _ & Hinactive).
    apply Hinactive. right. split; reflexivity.
Defined.

(** The active default director is disengaged by a tick on which GPS has
    lost authority, although the roll command is still valid. *)
Lemma default_guards_tick_from_Active_witness :
  state (exec (update (sampleEnv true 5%float navSource))
           (run sampleLifeActive (new (sampleEnv true 5%float gpsSource) None)))
  = Inactive.
Proof.
  assert (Hstate : state (run sampleLifeActive (new (sampleEnv true 5%float gpsSource) None))
                   = Active) by (vm_compute; reflexivity).
  destruct (default_guards_tick_from_Active (sampleEnv true 5%float gpsSource) None
              sampleLifeActive (sampleEnv true 5%float navSource)
              eq_refl Hstate) as (_ & Hinactive).
  apply Hinactive. right. reflexivity.
Defined.

(** With a bank rate of 3 degrees per second and a simulation rate of 1 the
    sink is driven with rate 3. *)
Lemma drive_rate_follows_option_witness :
  Some 3%float
  = match optBankRate (bankRateOptions (OptNumber 3%float)) with
    | OptNumber n =>
        Some (mul n (simRate (apValues (sampleEnv true 5%float gpsSource))))
    | OptFunction f =>
        Some (mul (f (sampleEnv true 5%float gpsSource))
                (simRate (apValues (sampleEnv true 5%float gpsSource))))
    | OptUndefined => None
    end.
Proof.
  apply (drive_rate_follows_option (sampleEnv true 5%float gpsSource)
           (Some (bankRateOptions (OptNumber 3%float))) sampleLifeArmed
           (sampleEnv true 5%float gpsSource) (-5)%float (Some 3%float)).
  vm_compute. right. left. reflexivity.
Defined.

(** Exactly one knot northbound, a NaN east-west component, an infinite
    north-south component. *)
Lemma DataProvider_update_edges_witness :
  track (DataProvider_update (velocityEnv 0%float 1%float 10%float) newDataProvider)
  = Some 10%float
  /\ track (DataProvider_update (velocityEnv nan 1%float 10%float) newDataProvider)
     = Some 10%float
  /\ track (DataProvider_update (velocityEnv 0%float infinity 10%float) newDataProvider)
     = Some 0%float.
Proof.
  destruct (DataProvider_update_edges (velocityEnv 0%float 1%float 10%float)
              newDataProvider newDataProvider) as (_ & _ & _ & _ & Hone & _ & _).
  destruct (DataProvider_update_edges (velocityEnv nan 1%float 10%float)
              newDataProvider newDataProvider) as (_ & _ & _ & _ & _ & Hnan & _).
  destruct (DataProvider_update_edges (velocityEnv 0%float infinity 10%float)
              newDataProvider newDataProvider) as (_ & _ & _ & _ & _ & _ & Hinf).
  split; [apply Hone; reflexivity | split; [apply Hnan; reflexivity|]].
  apply Hinf. reflexivity.
Defined.

(** * Properties of the synthetic vision layer *)

Section SyntheticVisionProperties.

Import SyntheticVision.

Context `{ChangeFlags}.

(** X14: Calling [onUpdated] a second time with the same visibility and
    projection changes nothing. *)
Theorem onUpdated_idempotent v p (s : Layer) :
  onUpdated v p (onUpdated v p s) = onUpdated v p s.
Proof.
  destruct s as [r res nuv nu]. destruct nuv, nu, v; reflexivity.
Qed.

Lemma applyOp_keeps_needUpdateVisibility o (s : Layer) :
  needUpdateVisibility s = true -> needUpdateVisibility (applyOp o s) = true.
Proof.
  destruct o as [| | f | v p]; simpl; intros Hs; try reflexivity.
  - unfold onProjectionChanged. destruct (isAny _ _); simpl; exact Hs.
  - unfold onUpdated. destruct (negb (needUpdate s) || negb v); simpl; exact Hs.
Qed.

Lemma runLayer_keeps_needUpdateVisibility (l : list LayerOp) (s : Layer) :
  needUpdateVisibility s = true -> needUpdateVisibility (runLayer l s) = true.
Proof.
  unfold runLayer. revert s. induction l as [|o l IH]; intros s Hs; simpl.
  - exact Hs.
  - apply IH. apply applyOp_keeps_needUpdateVisibility. exact Hs.
Qed.

(** X15: The visibility flag is never cleared: once the layer has been attached,
    whatever callbacks follow, every [onUpdated] leaves the [display] style
    at the empty string when the layer is visible and at [none] when it is
    not. *)
Theorem display_follows_visibility_once_attached
  (before after : list LayerOp) v p (s : Layer) :
  let s' := onUpdated v p (runLayer after (onAttached (runLayer before s))) in
  display (rootStyle s') = Literal (if v then "" else "none")
  /\ needUpdateVisibility s' = true.
Proof.
  simpl.
  pose proof (runLayer_keeps_needUpdateVisibility after
                (onAttached (runLayer before s)) eq_refl) as Hflag.
  unfold onUpdated. rewrite Hflag.
  destruct (negb _ || negb v); simpl; split; reflexivity.
Qed.

Lemma applyOp_hidden o (s : Layer) :
  needUpdate s = true -> isVisibleUpdate o = false ->
  needUpdate (applyOp o s) = true /\ geometry (applyOp o s) = geometry s.
Proof.
  destruct s as [r res nuv nu]; simpl; intros ->.
  destruct o as [| | f | v p]; simpl; intros Ho.
  - split; reflexivity.
  - split; reflexivity.
  - unfold onProjectionChanged. destruct (isAny _ _); split; reflexivity.
  - destruct v; [discriminate|]. unfold onUpdated; simpl.
    destruct nuv; split; reflexivity.
Qed.

(** X16: A requested layout waits for visibility: while no [onUpdated] sees the
    layer visible the geometry is left as it was and the request stays
    pending; the first visible [onUpdated] then lays the layer out from the
    projection it reads at that moment and clears the request. *)
Theorem layout_deferred_until_visible (l : list LayerOp) p (s : Layer) :
  needUpdate s = true ->
  forallb (fun o => negb (isVisibleUpdate o)) l = true ->
  geometry (runLayer l s) = geometry s
  /\ needUpdate (runLayer l s) = true
  /\ geometry (onUpdated true p (runLayer l s)) = layoutOf p
  /\ needUpdate (onUpdated true p (runLayer l s)) = false.
Proof.
  intros Hs Hall.
  assert (Hrun : needUpdate (runLayer l s) = true
                 /\ geometry (runLayer l s) = geometry s).
  { unfold runLayer. revert s Hs.
    induction l as [|o l IH]; intros s Hs; simpl in *.
    - split; [exact Hs | reflexivity].
    - apply andb_prop in Hall. destruct Hall as [Ho Hl].
      apply negb_true_iff in Ho.
      destruct (applyOp_hidden o s Hs Ho) as [Hn Hg].
      destruct (IH Hl _ Hn) as [Hn' Hg'].
      split; [exact Hn' | rewrite Hg'; exact Hg]. }
  destruct Hrun as [Hn Hg].
  split; [exact Hg | split; [exact Hn|]].
  unfold onUpdated. rewrite Hn. simpl.
  split; reflexivity.
Qed.

Lemma applyOp_no_request o (s : Layer) :
  needUpdate s = false -> requestsLayout o = false ->
  needUpdate (applyOp o s) = false /\ geometry (applyOp o s) = geometry s.
Proof.
  destruct s as [r res nuv nu]; simpl; intros ->.
  destruct o as [| | f | v p]; simpl; intros Ho; try discriminate.
  - split; reflexivity.
  - unfold onProjectionChanged. rewrite Ho. split; reflexivity.
  - unfold onUpdated; simpl. destruct nuv; split; reflexivity.
Qed.

(** X17: The layout is recomputed only on request: once it is up to date, and as
    long as the layer is neither attached again nor told of a change of the
    projected size or offset, no callback changes the geometry, whatever
    projections the later [onUpdated] calls read. *)
Theorem geometry_kept_without_request (l : list LayerOp) (s : Layer) :
  needUpdate s = false ->
  forallb (fun o => negb (requestsLayout o)) l = true ->
  geometry (runLayer l s) = geometry s /\ needUpdate (runLayer l s) = false.
Proof.
  unfold runLayer. revert s.
  induction l as [|o l IH]; intros s Hs Hall; simpl in *.
  - split; [reflexivity | exact Hs].
  - apply andb_prop in Hall. destruct Hall as [Ho Hl].
    apply negb_true_iff in Ho.
    destruct (applyOp_no_request o s Hs Ho) as [Hn Hg].
    destruct (IH _ Hn Hl) as [Hg' Hn'].
    split; [rewrite Hg'; exact Hg | exact Hn'].
Qed.

End SyntheticVisionProperties.

(** * Properties of the terrain mode mapping *)

(** X18: The terrain mode is SA exactly when SA terrain is enabled and the
    terrain/weather state is not [WX]; it is GEO exactly when SA terrain is
    disabled and geo terrain is enabled, whatever the state; otherwise it is
    OFF.  So the weather state suppresses SA terrain only. *)
Theorem terrainMode_table (terrWxState : string) (geo sa : bool) :
  (UpperMfdFormat.terrainMode terrWxState geo sa = UpperMfdFormat.SA
   <-> sa = true /\ terrWxState <> "WX"%string)
  /\ (UpperMfdFormat.terrainMode terrWxState geo sa = UpperMfdFormat.GEO
      <-> sa = false /\ geo = true)
  /\ (UpperMfdFormat.terrainMode terrWxState geo sa = UpperMfdFormat.OFF
      <-> (sa = true /\ terrWxState = "WX"%string) \/ (sa = false /\ geo = false)).
Proof.
  unfold UpperMfdFormat.terrainMode.
  destruct (String.eqb_spec terrWxState "WX") as [Heq | Hne];
    destruct geo, sa; simpl; repeat split; intros;
    repeat match goal with
      | H : _ /\ _ |- _ => destruct H
      | H : _ \/ _ |- _ => destruct H
      end; try congruence; auto.
Qed.

(** ** Examples for the layer and the terrain mode *)

#[local] Existing Instance SyntheticVision.sampleFlags.

(** An attached layer that is updated while hidden and then shown: the
    layout is the one of the projection read when it is shown. *)
Lemma layout_deferred_until_visible_witness :
  SyntheticVision.geometry
    (SyntheticVision.onUpdated true (SyntheticVision.sampleProjection 0%float 0%float)
       (SyntheticVision.runLayer
          [ SyntheticVision.Updated false
              (SyntheticVision.sampleProjection 10%float 0%float);
            SyntheticVision.VisibilityChanged ]
          (SyntheticVision.onAttached SyntheticVision.create)))
  = ((800%float, 600%float),
     SyntheticVision.Px 0%float, SyntheticVision.Px 0%float,
     SyntheticVision.Px 800%float, SyntheticVision.Px 600%float).
Proof.
  destruct (layout_deferred_until_visible
              [ SyntheticVision.Updated false
                  (SyntheticVision.sampleProjection 10%float 0%float);
                SyntheticVision.VisibilityChanged ]
              (SyntheticVision.sampleProjection 0%float 0%float)
              (SyntheticVision.onAttached SyntheticVision.create)
              eq_refl eq_refl) as (_ & _ & Hlayout & _).
  exact Hlayout.
Defined.

(** A laid-out layer keeps its geometry through a projection change that
    carries neither the size nor the offset flag, although the next update
    reads an offset of 50. *)
Lemma geometry_kept_without_request_witness :
  SyntheticVision.geometry
    (SyntheticVision.runLayer
       [ SyntheticVision.ProjectionChanged 1;
         SyntheticVision.Updated true
           (SyntheticVision.sampleProjection 50%float 0%float) ]
       (SyntheticVision.onUpdated true
          (SyntheticVision.sampleProjection 0%float 0%float)
          (SyntheticVision.onAttached SyntheticVision.create)))
  = ((800%float, 600%float),
     SyntheticVision.Px 0%float, SyntheticVision.Px 0%float,
     SyntheticVision.Px 800%float, SyntheticVision.Px 600%float).
Proof.
  refine (proj1 (geometry_kept_without_request
                   [ SyntheticVision.ProjectionChanged 1;
                     SyntheticVision.Updated true
                       (SyntheticVision.sampleProjection 50%float 0%float) ]
                   (SyntheticVision.onUpdated true
                      (SyntheticVision.sampleProjection 0%float 0%float)
                      (SyntheticVision.onAttached SyntheticVision.create))
                   _ _)); vm_compute; reflexivity.
Defined.

(** With the weather state selected, SA terrain is off and geo terrain is
    still shown. *)
Lemma terrainMode_table_witness :
  UpperMfdFormat.terrainMode "WX" true true = UpperMfdFormat.OFF
  /\ UpperMfdFormat.terrainMode "WX" true false = UpperMfdFormat.GEO.
Proof.
  split.
  - apply (terrainMode_table "WX" true true). left. split; reflexivity.
  - apply (terrainMode_table "WX" true false). split; reflexivity.
Defined.
